(** * Student management dashboard: the data, validation and roster core

    A shallow embedding of [src/App.js]: the form validator
    ([validateEmail], [validateStudent]), the course source
    ([StudentAPI.fetchCourses]), the roster operations
    ([StudentAPI.addStudent], [StudentAPI.updateStudent],
    [handleSaveStudent], [StudentForm.handleSubmit]) and the search
    projection ([filteredStudents]).

    JavaScript strings are sequences of UTF-16 code units; they are
    modelled as lists of code units, each a natural number.  Objects used
    as string-keyed maps (the [errors] object) are finite maps. *)

From Stdlib Require Import ZArith NArith Lia Ascii String.
From stdpp Require Import gmap strings list fin_maps sorting.

Local Open Scope N_scope.

(** ** JavaScript strings *)

Module JsString.

(** A string value: its UTF-16 code units, in order. *)
Abbreviation jsstring := (list N).

(** The code units of an ASCII literal of the source. *)
Fixpoint js (s : string) : jsstring :=
  match s with
  | EmptyString => []
  | String a s' => N_of_ascii a :: js s'
  end.

(** ECMAScript [WhiteSpace] and [LineTerminator] code points: the set that
    [String.prototype.trim] strips and that the class escape [\s] matches.
    TAB, LF, VT, FF, CR, SP, NBSP, U+1680, U+2000..U+200A, U+2028, U+2029,
    U+202F, U+205F, U+3000 and U+FEFF. *)
Definition isWhiteSpace (c : N) : bool :=
  ((9 <=? c) && (c <=? 13)) || (c =? 32) || (c =? 160) || (c =? 5760)
  || ((8192 <=? c) && (c <=? 8202)) || (c =? 8232) || (c =? 8233)
  || (c =? 8239) || (c =? 8287) || (c =? 12288) || (c =? 65279).

(** [String.prototype.trimStart] *)
Fixpoint trimStart (s : jsstring) : jsstring :=
  match s with
  | [] => []
  | c :: s' => if isWhiteSpace c then trimStart s' else s
  end.

(** [String.prototype.trimEnd] *)
Definition trimEnd (s : jsstring) : jsstring := rev (trimStart (rev s)).

(** [String.prototype.trim] *)
Definition trim (s : jsstring) : jsstring := trimEnd (trimStart s).

(** [!s] on a string: only the empty string is falsy. *)
Definition not_str (s : jsstring) : bool :=
  match s with
  | [] => true
  | _ :: _ => false
  end.

(** [String.prototype.startsWith] (at position 0). *)
Fixpoint startsWith (s t : jsstring) {struct t} : bool :=
  match t with
  | [] => true
  | b :: t' =>
      match s with
      | [] => false
      | a :: s' => (a =? b) && startsWith s' t'
      end
  end.

(** [String.prototype.includes]: does [t] occur in [s] as a contiguous run
    of code units? *)
Fixpoint includes (s t : jsstring) : bool :=
  startsWith s t ||
  match s with
  | [] => false
  | _ :: s' => includes s' t
  end.

(** Lower-casing of the ASCII letters, the restriction of
    [String.prototype.toLowerCase] to ASCII text. *)
Definition asciiToLowerCase (s : jsstring) : jsstring :=
  map (fun c => if (65 <=? c) && (c <=? 90) then c + 32 else c) s.

Lemma trimStart_nil_iff (s : jsstring) :
  trimStart s = [] ↔ Forall (fun c => isWhiteSpace c = true) s.
Proof.
  induction s as [|c s IH]; simpl.
  - split; [constructor | reflexivity].
  - destruct (isWhiteSpace c) eqn:Hc.
    + rewrite IH. split.
      * intros H. constructor; assumption.
      * intros H. inversion H; assumption.
    + split; [discriminate|].
      intros H. inversion H; congruence.
Qed.

Lemma trimStart_all_ws (s : jsstring) :
  Forall (fun c => isWhiteSpace c = true) (trimStart s) →
  Forall (fun c => isWhiteSpace c = true) s.
Proof.
  induction s as [|c s IH]; simpl; [done|].
  destruct (isWhiteSpace c) eqn:Hc; [|done].
  intros H. constructor; auto.
Qed.

(** The trimmed string is empty exactly when every code unit is white
    space. *)
Lemma trim_nil_iff (s : jsstring) :
  trim s = [] ↔ Forall (fun c => isWhiteSpace c = true) s.
Proof.
  unfold trim, trimEnd. split.
  - intros H. apply trimStart_all_ws.
    apply (f_equal (@rev N)) in H. rewrite rev_involutive in H. simpl in H.
    apply trimStart_nil_iff in H.
    apply Forall_rev in H. by rewrite rev_involutive in H.
  - intros H. apply trimStart_nil_iff in H. by rewrite H.
Qed.

Lemma not_str_true (s : jsstring) : not_str s = true ↔ s = [].
Proof. by destruct s. Qed.

Lemma not_str_false (s : jsstring) : not_str s = false ↔ s ≠ [].
Proof. by destruct s. Qed.

Lemma startsWith_spec (s t : jsstring) :
  startsWith s t = true ↔ ∃ post, s = t ++ post.
Proof.
  revert s. induction t as [|b t IH]; intros s; simpl.
  - split; [intros _; by exists s | reflexivity].
  - destruct s as [|a s].
    + split; [discriminate | intros [post ?]; discriminate].
    + rewrite andb_true_iff, N.eqb_eq, IH. split.
      * intros [-> [post ->]]. by exists post.
      * intros [post H]. injection H as -> ->. split; [done | by exists post].
Qed.

(** [includes] decides the substring relation. *)
Lemma includes_spec (s t : jsstring) :
  includes s t = true ↔ ∃ pre post, s = pre ++ t ++ post.
Proof.
  induction s as [|a s IH]; simpl.
  - rewrite orb_false_r, startsWith_spec. split.
    + intros [post H]. by exists [], post.
    + intros [pre [post H]]. destruct pre; [by exists post | done].
  - rewrite orb_true_iff, startsWith_spec, IH. split.
    + intros [[post H] | [pre [post H]]].
      * by exists [], post.
      * exists (a :: pre), post. by rewrite H.
    + intros [pre [post H]]. destruct pre as [|a' pre]; simpl in H.
      * left. by exists post.
      * right. injection H as _ ->. by exists pre, post.
Qed.

End JsString.

(** ** Regular expressions

    The fragment of the regular-expression language that the source's one
    literal needs: character classes, concatenation and repetition.
    [RegExp.prototype.test] on a literal anchored at both ends ([^ ... $])
    and without flags succeeds exactly when the whole input is in the
    language of the body, which [regex_test] decides with derivatives. *)

Module Regex.
Import JsString.

Inductive regex : Type :=
| Void
| Eps
| Class (p : N → bool)
| Cat (r1 r2 : regex)
| Alt (r1 r2 : regex)
| Star (r : regex).

(** [r+] *)
Definition Plus (r : regex) : regex := Cat r (Star r).

(** A literal character. *)
Definition Char (c : N) : regex := Class (fun x => x =? c).

(** The language of a regular expression. *)
Inductive matches : regex → jsstring → Prop :=
| MEps : matches Eps []
| MClass p c : p c = true → matches (Class p) [c]
| MCat r1 r2 s1 s2 :
    matches r1 s1 → matches r2 s2 → matches (Cat r1 r2) (s1 ++ s2)
| MAltL r1 r2 s : matches r1 s → matches (Alt r1 r2) s
| MAltR r1 r2 s : matches r2 s → matches (Alt r1 r2) s
| MStarNil r : matches (Star r) []
| MStarCons r s1 s2 :
    matches r s1 → matches (Star r) s2 → matches (Star r) (s1 ++ s2).

Fixpoint nullable (r : regex) : bool :=
  match r with
  | Void => false
  | Eps => true
  | Class _ => false
  | Cat r1 r2 => nullable r1 && nullable r2
  | Alt r1 r2 => nullable r1 || nullable r2
  | Star _ => true
  end.

Fixpoint deriv (c : N) (r : regex) : regex :=
  match r with
  | Void => Void
  | Eps => Void
  | Class p => if p c then Eps else Void
  | Cat r1 r2 =>
      if nullable r1
      then Alt (Cat (deriv c r1) r2) (deriv c r2)
      else Cat (deriv c r1) r2
  | Alt r1 r2 => Alt (deriv c r1) (deriv c r2)
  | Star r1 => Cat (deriv c r1) (Star r1)
  end.

(** Whole-input match. *)
Fixpoint regex_test (r : regex) (s : jsstring) : bool :=
  match s with
  | [] => nullable r
  | c :: s' => regex_test (deriv c r) s'
  end.

Lemma matches_nil_nullable (r : regex) (s : jsstring) :
  matches r s → s = [] → nullable r = true.
Proof.
  induction 1 as [ | p c Hp | r1 r2 s1 s2 _ IH1 _ IH2 | r1 r2 s _ IH
                 | r1 r2 s _ IH | r | r s1 s2 _ _ _ _ ]; intros Hs; simpl.
  - reflexivity.
  - discriminate.
  - apply app_eq_nil in Hs as [-> ->]. by rewrite IH1, IH2.
  - by rewrite IH.
  - rewrite IH by done. apply orb_true_r.
  - reflexivity.
  - reflexivity.
Qed.

Lemma nullable_matches_nil (r : regex) :
  nullable r = true → matches r [].
Proof.
  induction r as [ | | p | r1 IH1 r2 IH2 | r1 IH1 r2 IH2 | r IH ]; simpl;
    intros H; try discriminate.
  - constructor.
  - apply andb_true_iff in H as [H1 H2].
    change (@nil N) with (@nil N ++ []). constructor; auto.
  - apply orb_true_iff in H as [H1 | H2].
    + apply MAltL; auto.
    + apply MAltR; auto.
  - constructor.
Qed.

Lemma nullable_spec (r : regex) : nullable r = true ↔ matches r [].
Proof.
  split; [apply nullable_matches_nil|].
  intros H. by apply (matches_nil_nullable r []).
Qed.

(** How a concatenation consumes a first character. *)
Lemma matches_cat_cons (r1 r2 : regex) (c : N) (s : jsstring) :
  matches (Cat r1 r2) (c :: s) →
  (∃ s1 s2, s = s1 ++ s2 ∧ matches r1 (c :: s1) ∧ matches r2 s2)
  ∨ (matches r1 [] ∧ matches r2 (c :: s)).
Proof.
  intros H. inversion H as [ | | ? ? s1 s2 H1 H2 Hr Hs | | | | ].
  destruct s1 as [|a s1]; simpl in Hs.
  - right. subst. auto.
  - left. injection Hs as Ha Hs'. subst. eauto.
Qed.

(** How a repetition consumes a first character. *)
Lemma matches_star_cons (r0 : regex) (s0 : jsstring) :
  matches r0 s0 →
  ∀ r c s, r0 = Star r → s0 = c :: s →
  ∃ s1 s2, s = s1 ++ s2 ∧ matches r (c :: s1) ∧ matches (Star r) s2.
Proof.
  induction 1 as [ | | | | | | r' s1 s2 H1 _ H2 IH2 ];
    intros q ch rest Hr Hs; try discriminate.
  injection Hr as ->.
  destruct s1 as [|a s1]; simpl in Hs.
  - eapply IH2; eauto.
  - injection Hs as Ha Hs'. subst. eauto.
Qed.

Lemma deriv_sound (r : regex) :
  ∀ c s, matches (deriv c r) s → matches r (c :: s).
Proof.
  induction r as [ | | p | r1 IH1 r2 IH2 | r1 IH1 r2 IH2 | r IH ]; simpl;
    intros c s H.
  - inversion H.
  - inversion H.
  - destruct (p c) eqn:Hp; inversion H; subst. by constructor.
  - assert (Hcat : ∀ s', matches (Cat (deriv c r1) r2) s' →
                         matches (Cat r1 r2) (c :: s')).
    { intros s' H'. inversion H' as [ | | ? ? s1 s2 Ha Hb | | | | ]; subst.
      change (c :: s1 ++ s2) with ((c :: s1) ++ s2). constructor; auto. }
    destruct (nullable r1) eqn:Hn; [|auto].
    inversion H; subst; [auto|].
    change (c :: s) with ([] ++ c :: s).
    constructor; [by apply nullable_matches_nil | auto].
  - inversion H; subst; [apply MAltL | apply MAltR]; auto.
  - inversion H as [ | | ? ? s1 s2 Ha Hb | | | | ]; subst.
    change (c :: s1 ++ s2) with ((c :: s1) ++ s2). constructor; auto.
Qed.

Lemma deriv_complete (r : regex) :
  ∀ c s, matches r (c :: s) → matches (deriv c r) s.
Proof.
  induction r as [ | | p | r1 IH1 r2 IH2 | r1 IH1 r2 IH2 | r IH ]; simpl;
    intros c s H.
  - inversion H.
  - inversion H.
  - inversion H as [ | ? ? Hp | | | | | ]; subst. rewrite Hp. constructor.
  - apply matches_cat_cons in H as [(s1 & s2 & -> & Ha & Hb) | [Ha Hb]].
    + destruct (nullable r1); [apply MAltL|]; constructor; auto.
    + rewrite (matches_nil_nullable r1 [] Ha eq_refl). apply MAltR; auto.
  - inversion H; subst; [apply MAltL | apply MAltR]; auto.
  - destruct (matches_star_cons _ _ H r c s eq_refl eq_refl)
      as (s1 & s2 & -> & Ha & Hb).
    constructor; auto.
Qed.

(** The derivative matcher decides the language. *)
Lemma regex_test_spec (r : regex) (s : jsstring) :
  regex_test r s = true ↔ matches r s.
Proof.
  revert r. induction s as [|c s IH]; intros r; simpl.
  - apply nullable_spec.
  - rewrite IH. split; [apply deriv_sound | apply deriv_complete].
Qed.

Lemma matches_cat (r1 r2 : regex) (s : jsstring) :
  matches (Cat r1 r2) s ↔
  ∃ s1 s2, s = s1 ++ s2 ∧ matches r1 s1 ∧ matches r2 s2.
Proof.
  split.
  - intros H. inversion H; subst. eauto.
  - intros (s1 & s2 & -> & H1 & H2). by constructor.
Qed.

Lemma matches_char (c : N) (s : jsstring) : matches (Char c) s ↔ s = [c].
Proof.
  unfold Char. split.
  - intros H. inversion H as [ | ? ? Hp | | | | | ]; subst.
    by apply N.eqb_eq in Hp as ->.
  - intros ->. constructor. apply N.eqb_refl.
Qed.

Lemma matches_class_star_Forall (r0 : regex) (s : jsstring) :
  matches r0 s → ∀ p, r0 = Star (Class p) → Forall (fun c => p c = true) s.
Proof.
  induction 1 as [ | | | | | | r' s1 s2 H1 _ H2 IH2 ]; intros q Hr;
    try discriminate.
  - constructor.
  - injection Hr as ->. inversion H1; subst. simpl.
    constructor; [done | by apply IH2].
Qed.

Lemma matches_class_star (p : N → bool) (s : jsstring) :
  matches (Star (Class p)) s ↔ Forall (fun c => p c = true) s.
Proof.
  split.
  - intros H. by eapply matches_class_star_Forall.
  - induction 1 as [|c s Hc _ IH]; [constructor|].
    change (c :: s) with ([c] ++ s). constructor; [by constructor | done].
Qed.

(** One or more characters of a class. *)
Lemma matches_class_plus (p : N → bool) (s : jsstring) :
  matches (Plus (Class p)) s ↔ s ≠ [] ∧ Forall (fun c => p c = true) s.
Proof.
  unfold Plus. rewrite matches_cat. split.
  - intros (s1 & s2 & -> & H1 & H2). inversion H1; subst. simpl.
    split; [done|]. constructor; [done | by apply matches_class_star].
  - intros [Hne H]. destruct H as [|c s Hc H]; [done|].
    exists [c], s. split; [done|]. split; [by constructor|].
    by apply matches_class_star.
Qed.

End Regex.

(** ** Form validation ([validateEmail], [validateStudent]) *)

Module Validator.
Import JsString Regex.

(** The object the form edits: [{ name, email, course, profileImage }],
    four strings. *)
Record FormData : Type := mkFormData {
  form_name : jsstring;
  form_email : jsstring;
  form_course : jsstring;
  form_profileImage : jsstring
}.

(** The class [[^\s@]]; 64 is the code unit of the at sign. *)
Definition notSpaceOrAt (c : N) : bool := negb (isWhiteSpace c || (c =? 64)).

(** The class [\S]. *)
Definition notSpace (c : N) : bool := negb (isWhiteSpace c).

(** The literal [/^[^\s@]+@[^\s@]+\.[^\s@]+$/]; 46 is the code unit of
    the full stop. *)
Definition emailRegex : regex :=
  Cat (Plus (Class notSpaceOrAt))
    (Cat (Char 64)
       (Cat (Plus (Class notSpaceOrAt))
          (Cat (Char 46) (Plus (Class notSpaceOrAt))))).

Definition validateEmail (email : jsstring) : bool :=
  regex_test emailRegex email.

Definition validateStudent (student : FormData) : gmap string string :=
  let errors : gmap string string := ∅ in
  let errors :=
    if not_str (trim (form_name student))
    then <["name" := "Name is required"]> errors
    else errors in
  let errors :=
    if not_str (trim (form_email student))
    then <["email" := "Email is required"]> errors
    else if negb (validateEmail (form_email student))
         then <["email" := "Please enter a valid email address"]> errors
         else errors in
  let errors :=
    if not_str (form_course student)
    then <["course" := "Please select a course"]> errors
    else errors in
  errors.

(** The pattern as the specification words it: one or more non-whitespace
    non-at characters, an at sign, one or more non-whitespace non-at
    characters, a full stop, one or more non-whitespace characters. *)
Definition specEmailPattern : regex :=
  Cat (Plus (Class notSpaceOrAt))
    (Cat (Char 64)
       (Cat (Plus (Class notSpaceOrAt))
          (Cat (Char 46) (Plus (Class notSpace))))).

(** The shape [local@domain.tld], the characters of the last part taken
    from the class [tail]. *)
Definition email_shape (tail : N → bool) (s : jsstring) : Prop :=
  ∃ l d t : jsstring,
    s = l ++ [64] ++ d ++ [46] ++ t
    ∧ (l ≠ [] ∧ Forall (fun c => notSpaceOrAt c = true) l)
    ∧ (d ≠ [] ∧ Forall (fun c => notSpaceOrAt c = true) d)
    ∧ (t ≠ [] ∧ Forall (fun c => tail c = true) t).

(** The email rule of the validator, for a pattern whose last part ranges
    over [tail]: which of the two messages, if any, is reported. *)
Definition email_rule (tail : N → bool) (c : FormData) : Prop :=
  (validateStudent c !! "email" = Some "Email is required"
     ↔ trim (form_email c) = [])
  ∧ (validateStudent c !! "email" = Some "Please enter a valid email address"
     ↔ trim (form_email c) ≠ [] ∧ ¬ email_shape tail (form_email c))
  ∧ (validateStudent c !! "email" = None
     ↔ trim (form_email c) ≠ [] ∧ email_shape tail (form_email c)).

Lemma shape_matches (tail : N → bool) (s : jsstring) :
  matches
    (Cat (Plus (Class notSpaceOrAt))
       (Cat (Char 64)
          (Cat (Plus (Class notSpaceOrAt))
             (Cat (Char 46) (Plus (Class tail)))))) s
  ↔ email_shape tail s.
Proof.
  unfold email_shape. split.
  - intros H.
    apply matches_cat in H as (l & s1 & -> & Hl & H).
    apply matches_cat in H as (a & s2 & -> & Ha & H).
    apply matches_cat in H as (d & s3 & -> & Hd & H).
    apply matches_cat in H as (b & t & -> & Hb & Ht).
    apply matches_char in Ha as ->. apply matches_char in Hb as ->.
    apply matches_class_plus in Hl, Hd, Ht.
    by exists l, d, t.
  - intros (l & d & t & -> & Hl & Hd & Ht).
    apply matches_class_plus in Hl, Hd, Ht.
    repeat (constructor; [by (done || apply matches_char)|]). done.
Qed.

Lemma validateEmail_shape (email : jsstring) :
  validateEmail email = true ↔ email_shape notSpaceOrAt email.
Proof.
  unfold validateEmail. rewrite regex_test_spec. apply shape_matches.
Qed.

Lemma specEmailPattern_shape (email : jsstring) :
  regex_test specEmailPattern email = true ↔ email_shape notSpace email.
Proof. rewrite regex_test_spec. apply shape_matches. Qed.

(** The three rules write to three different keys, so each lookup sees
    the outcome of its own rule only. *)
Lemma validateStudent_name (c : FormData) :
  validateStudent c !! "name" =
  if not_str (trim (form_name c)) then Some "Name is required" else None.
Proof.
  unfold validateStudent.
  destruct (not_str (trim (form_name c))), (not_str (trim (form_email c))),
    (negb (validateEmail (form_email c))), (not_str (form_course c));
    by simplify_map_eq.
Qed.

Lemma validateStudent_email (c : FormData) :
  validateStudent c !! "email" =
  if not_str (trim (form_email c)) then Some "Email is required"
  else if negb (validateEmail (form_email c))
       then Some "Please enter a valid email address"
       else None.
Proof.
  unfold validateStudent.
  destruct (not_str (trim (form_name c))), (not_str (trim (form_email c))),
    (negb (validateEmail (form_email c))), (not_str (form_course c));
    by simplify_map_eq.
Qed.

Lemma validateStudent_course (c : FormData) :
  validateStudent c !! "course" =
  if not_str (form_course c) then Some "Please select a course" else None.
Proof.
  unfold validateStudent.
  destruct (not_str (trim (form_name c))), (not_str (trim (form_email c))),
    (negb (validateEmail (form_email c))), (not_str (form_course c));
    by simplify_map_eq.
Qed.

Lemma validateStudent_keys (c : FormData) (k : string) :
  is_Some (validateStudent c !! k) → k = "name" ∨ k = "email" ∨ k = "course".
Proof.
  unfold validateStudent. intros [m Hm].
  destruct (decide (k = "name")) as [|Hn]; [by left|].
  destruct (decide (k = "email")) as [|He]; [by (right; left)|].
  destruct (decide (k = "course")) as [|Hc]; [by (right; right)|].
  exfalso.
  destruct (not_str (trim (form_name c))), (not_str (trim (form_email c))),
    (negb (validateEmail (form_email c))), (not_str (form_course c));
    by simplify_map_eq.
Qed.

End Validator.

(** ** The course source ([StudentAPI.fetchCourses]) *)

Module CourseSource.
Import JsString.

(** What the code needs of JavaScript numbers: numeric literals and the
    truthiness test (a number is falsy when it is a zero or NaN). *)
Class JsNumber (number : Type) : Type := {
  number_of_Z : Z → number;
  number_falsy : number → bool
}.

(** Integers as numbers, for running the definitions. *)
#[export] Instance Z_JsNumber : JsNumber Z := {|
  number_of_Z := fun z => z;
  number_falsy := fun z => (z =? 0)%Z
|}.

(** Exceptions that the body of [fetchCourses] can raise. *)
Inductive exn : Type :=
| NetworkFailure              (* [fetch] rejects *)
| HttpError (status : Z)      (* thrown by the code when [!response.ok] *)
| SyntaxError                 (* [response.json()] rejects *)
| TypeError.                  (* property read on null or undefined,
                                 call of something that is not a function *)

(** The outcome of evaluating an expression or awaiting a promise. *)
Inductive completion (A : Type) : Type :=
| Return (a : A)
| Throw (e : exn).
Arguments Return {A} a.
Arguments Throw {A} e.

Definition bind {A B : Type} (m : completion A) (k : A → completion B)
  : completion B :=
  match m with
  | Return a => k a
  | Throw e => Throw e
  end.

Notation "'let!' x ':=' m 'in' k" := (bind m (fun x => k))
  (at level 10, x name, m at level 100, k at level 200).

Fixpoint mapM {A B : Type} (f : A → completion B) (l : list A)
  : completion (list B) :=
  match l with
  | [] => Return []
  | a :: l' => let! b := f a in let! bs := mapM f l' in Return (b :: bs)
  end.

Section Values.
Context {number : Type} `{JsNumber number}.

(** Values that a parsed JSON body is made of, and [undefined], which a
    read of an absent property yields.  An object is the list of its own
    properties, each key occurring once. *)
#[warnings="-register-all"] Inductive value : Type :=
| VUndefined
| VNull
| VBool (b : bool)
| VNum (n : number)
| VStr (s : jsstring)
| VArr (items : list value)
| VObj (props : list (jsstring * value)).

(** ToBoolean *)
Definition truthy (v : value) : bool :=
  match v with
  | VUndefined | VNull => false
  | VBool b => b
  | VNum n => negb (number_falsy n)
  | VStr s => negb (not_str s)
  | VArr _ | VObj _ => true
  end.

Fixpoint lookup_prop (k : jsstring) (props : list (jsstring * value)) : value :=
  match props with
  | [] => VUndefined
  | (k', v) :: ps => if decide (k' = k) then v else lookup_prop k ps
  end.

(** The value of [v.k] for a key [k] that no built-in prototype defines,
    as is the case of [id], [name], [courseName] and [title]: an own
    property of an object, [undefined] anywhere else. *)
Definition field (v : value) (k : jsstring) : value :=
  match v with
  | VObj props => lookup_prop k props
  | _ => VUndefined
  end.

(** The property read [v.k]: a TypeError on [null] and [undefined]. *)
Definition get (v : value) (k : jsstring) : completion value :=
  match v with
  | VUndefined | VNull => Throw TypeError
  | _ => Return (field v k)
  end.

(** [a || b], the right operand evaluated only when the left is falsy. *)
Definition or_else (a : value) (b : completion value) : completion value :=
  if truthy a then Return a else b.

Record Course : Type := mkCourse {
  course_id : value;
  course_name : value
}.

(** The arrow function passed to [courses.map]:
    [course => ({ id: course.id,
                  name: course.name || course.courseName || course.title })] *)
Definition normalize (course : value) : completion Course :=
  let! i := get course (js "id") in
  let! n := get course (js "name") in
  let! n' := or_else n (get course (js "courseName")) in
  let! n'' := or_else n' (get course (js "title")) in
  Return (mkCourse i n'').

(** [courses.map(f)]: only an array has a [map] method. *)
Definition array_map {B : Type} (f : value → completion B) (courses : value)
  : completion (list B) :=
  match courses with
  | VArr items => mapM f items
  | _ => Throw TypeError
  end.

(** What the network gives back: [fetch] rejects, or resolves to a
    response with a status and a body that [response.json()] parses or
    rejects with a SyntaxError. *)
Record Response : Type := mkResponse {
  status : Z;
  json : completion value
}.

Inductive FetchResult : Type :=
| Rejected
| Resolved (response : Response).

(** [response.ok]: the status is in the range 200..299. *)
Definition ok (response : Response) : bool :=
  ((200 <=? status response) && (status response <=? 299))%Z.

Definition fallbackCourses : list Course :=
  [ mkCourse (VNum (number_of_Z 1)) (VStr (js "HTML Basics"));
    mkCourse (VNum (number_of_Z 2)) (VStr (js "CSS Mastery"));
    mkCourse (VNum (number_of_Z 3)) (VStr (js "JavaScript Pro"));
    mkCourse (VNum (number_of_Z 4)) (VStr (js "React In Depth")) ].

(** The [try] block of [fetchCourses]. *)
Definition fetchCourses_try (net : FetchResult) : completion (list Course) :=
  let! response := match net with
                    | Rejected => Throw NetworkFailure
                    | Resolved r => Return r
                    end in
  let! _ := (if negb (ok response) then Throw (HttpError (status response))
             else Return tt) in
  let! courses := json response in
  array_map normalize courses.

(** [fetchCourses]: the [try] block, and the [catch] clause that answers
    every exception with the fallback list. *)
Definition fetchCourses (net : FetchResult) : completion (list Course) :=
  match fetchCourses_try net with
  | Return courses => Return courses
  | Throw _ => Return fallbackCourses
  end.

(** A body that is not the expected array: not JSON at all, JSON that is
    not an array, or an array with a [null] among its items. *)
Inductive malformed : completion value → Prop :=
| NotJson e : malformed (Throw e)
| NotArray v : (∀ items, v ≠ VArr items) → malformed (Return v)
| NullItem items : VNull ∈ items → malformed (Return (VArr items)).

(** The failures of the course fetch. *)
Inductive fetch_failed : FetchResult → Prop :=
| NetworkError : fetch_failed Rejected
| BadStatus r : ¬ (200 ≤ status r ≤ 299)%Z → fetch_failed (Resolved r)
| BadBody r : malformed (json r) → fetch_failed (Resolved r).

Lemma truthy_str (s : jsstring) : truthy (VStr s) = true ↔ s ≠ [].
Proof. by destruct s. Qed.

Lemma fetchCourses_returns (net : FetchResult) :
  ∃ courses, fetchCourses net = Return courses.
Proof. unfold fetchCourses. destruct (fetchCourses_try net); eauto. Qed.

Lemma mapM_null {B : Type} (f : value → completion B) (items : list value) :
  f VNull = Throw TypeError → VNull ∈ items →
  ∃ e, mapM f items = Throw e.
Proof.
  intros Hf. induction items as [|v items IH]; intros Hin.
  - by apply elem_of_nil in Hin.
  - apply elem_of_cons in Hin as [<- | Hin]; simpl.
    + rewrite Hf. eauto.
    + destruct (f v); simpl; [|eauto].
      destruct (IH Hin) as [e ->]. eauto.
Qed.

Lemma fetchCourses_try_failed (net : FetchResult) :
  fetch_failed net → ∃ e, fetchCourses_try net = Throw e.
Proof.
  unfold fetchCourses_try. intros [ | r Hr | r Hr ]; simpl.
  - eauto.
  - assert (ok r = false) as ->; [|simpl; eauto].
    unfold ok. apply andb_false_iff. rewrite !Z.leb_gt. lia.
  - destruct (ok r); simpl; [|eauto].
    destruct Hr as [ e | v Hv | items Hin ]; simpl.
    + eauto.
    + destruct v; simpl; eauto. by destruct (Hv items).
    + by apply mapM_null.
Qed.

(** The result of [normalize] on anything but [null] and [undefined]. *)
Definition normalized (item : value) : Course :=
  mkCourse (field item (js "id"))
    (if truthy (field item (js "name")) then field item (js "name")
     else if truthy (field item (js "courseName"))
          then field item (js "courseName")
          else field item (js "title")).

Lemma normalize_defined (item : value) :
  item ≠ VNull → item ≠ VUndefined → normalize item = Return (normalized item).
Proof.
  intros Hn Hu. unfold normalize, normalized, or_else.
  destruct item; try done; simpl;
    repeat (match goal with |- context [truthy ?v] =>
                              destruct (truthy v) eqn:?; simpl end);
    congruence.
Qed.


End Values.

Arguments value number : clear implicits.
Arguments Course number : clear implicits.
Arguments Response number : clear implicits.
Arguments FetchResult number : clear implicits.

End CourseSource.

(** ** The roster: students, the dashboard state and its handlers *)

Module Roster.
Import JsString Validator.

Local Open Scope Z_scope.

(** A saved student: the form's four fields and an [id], a number of
    milliseconds read from the clock. *)
Record Student : Type := mkStudent {
  student_id : Z;
  student_name : jsstring;
  student_email : jsstring;
  student_course : jsstring;
  student_profileImage : jsstring
}.

(** The object spread [{ ...studentData, id }]. *)
Definition withId (studentData : FormData) (id : Z) : Student :=
  mkStudent id (form_name studentData) (form_email studentData)
    (form_course studentData) (form_profileImage studentData).

(** [StudentAPI.addStudent]: [{ ...student, id: Date.now() }], where [now]
    is what [Date.now()] returns when the call gets there. *)
Definition addStudent (student : FormData) (now : Z) : Student :=
  withId student now.

(** [StudentAPI.updateStudent] *)
Definition updateStudent (updatedStudent : Student) : Student :=
  updatedStudent.

(** The state of [StudentManagementDashboard] that the handlers use. *)
Record Dashboard : Type := mkDashboard {
  students : list Student;
  showForm : bool;
  editingStudent : option Student;
  searchTerm : jsstring
}.

(** The state of [StudentForm]. *)
Record FormState : Type := mkFormState {
  formData : FormData;
  errors : gmap string string;
  isSubmitting : bool
}.

Definition initialDashboard : Dashboard := mkDashboard [] false None [].

Definition handleAddStudent (st : Dashboard) : Dashboard :=
  mkDashboard (students st) true None (searchTerm st).

Definition handleEditStudent (student : Student) (st : Dashboard) : Dashboard :=
  mkDashboard (students st) true (Some student) (searchTerm st).

Definition handleCancelForm (st : Dashboard) : Dashboard :=
  mkDashboard (students st) false None (searchTerm st).

(** [handleSaveStudent]; neither API call can reject, so the [catch]
    clause is never entered. *)
Definition handleSaveStudent (now : Z) (studentData : FormData) (st : Dashboard)
  : Dashboard :=
  let students' :=
    match editingStudent st with
    | Some editing =>
        let updatedStudent :=
          updateStudent (withId studentData (student_id editing)) in
        map (fun s => if decide (student_id s = student_id editing)
                      then updatedStudent else s)
            (students st)
    | None =>
        let newStudent := addStudent studentData now in
        students st ++ [newStudent]
    end in
  mkDashboard students' false None (searchTerm st).

(** [StudentForm.handleSubmit], with [onSave] bound to
    [handleSaveStudent]; the two timers only delay the effect. *)
Definition handleSubmit (now : Z) (form : FormState) (st : Dashboard)
  : FormState * Dashboard :=
  let validationErrors := validateStudent (formData form) in
  if (0 <? size validationErrors)%nat
  then (mkFormState (formData form) validationErrors (isSubmitting form), st)
  else (mkFormState (formData form) (errors form) false,
        handleSaveStudent now (formData form) st).

(** The form as [StudentForm] first renders it around some data. *)
Definition openForm (data : FormData) : FormState := mkFormState data ∅ false.

(** What the user does to the dashboard. *)
Inductive action : Type :=
| StartAdd
| StartEdit (student : Student)
| Save (now : Z) (data : FormData)
| Cancel.

Definition step (a : action) (st : Dashboard) : Dashboard :=
  match a with
  | StartAdd => handleAddStudent st
  | StartEdit student => handleEditStudent student st
  | Save now data => (handleSubmit now (openForm data) st).2
  | Cancel => handleCancelForm st
  end.

Fixpoint run (actions : list action) (st : Dashboard) : Dashboard :=
  match actions with
  | [] => st
  | a :: rest => run rest (step a st)
  end.

(** The clock readings of the saves of a run, in order. *)
Fixpoint clock (actions : list action) : list Z :=
  match actions with
  | [] => []
  | Save now _ :: rest => now :: clock rest
  | _ :: rest => clock rest
  end.

Definition ids (st : Dashboard) : list Z := map student_id (students st).

Section Search.
(** [String.prototype.toLowerCase], whose Unicode case tables are the
    engine's. *)
Variable toLowerCase : jsstring → jsstring.

(** The predicate passed to [students.filter]. *)
Definition matchesSearch (searchTerm : jsstring) (student : Student) : bool :=
  includes (toLowerCase (student_name student)) (toLowerCase searchTerm)
  || includes (toLowerCase (student_email student)) (toLowerCase searchTerm)
  || includes (toLowerCase (student_course student)) (toLowerCase searchTerm).

(** The memoized [filteredStudents]. *)
Definition filteredStudents (students : list Student) (searchTerm : jsstring)
  : list Student :=
  if not_str searchTerm then students
  else List.filter (matchesSearch searchTerm) students.

(** [field] contains [term] as a substring, letter case ignored. *)
Definition contains_ci (field term : jsstring) : Prop :=
  ∃ pre post, toLowerCase field = pre ++ toLowerCase term ++ post.

(** The student matches the term on its name, email or course. *)
Definition found (term : jsstring) (student : Student) : Prop :=
  contains_ci (student_name student) term
  ∨ contains_ci (student_email student) term
  ∨ contains_ci (student_course student) term.

Lemma matchesSearch_found (term : jsstring) (student : Student) :
  matchesSearch term student = true ↔ found term student.
Proof.
  unfold matchesSearch, found, contains_ci.
  rewrite !orb_true_iff, !includes_spec. tauto.
Qed.

End Search.

(** [selects P l r]: [r] is the subsequence of [l], in the order of [l],
    of exactly the elements that satisfy [P]. *)
Inductive selects {A : Type} (P : A → Prop) : list A → list A → Prop :=
| selects_nil : selects P [] []
| selects_keep x l r : P x → selects P l r → selects P (x :: l) (x :: r)
| selects_drop x l r : ¬ P x → selects P l r → selects P (x :: l) r.

Lemma filter_selects {A : Type} (f : A → bool) (P : A → Prop) (l : list A) :
  (∀ x, f x = true ↔ P x) → selects P l (List.filter f l).
Proof.
  intros Hf. induction l as [|x l IH]; simpl; [constructor|].
  destruct (f x) eqn:Hx.
  - apply selects_keep; [by apply Hf | done].
  - apply selects_drop; [|done]. rewrite <- Hf. congruence.
Qed.

Lemma selects_sublist {A : Type} (P : A → Prop) (l r : list A) :
  selects P l r → r `sublist_of` l.
Proof. induction 1; by constructor. Qed.

Lemma selects_elem_of {A : Type} (P : A → Prop) (l r : list A) :
  selects P l r → ∀ x, x ∈ r ↔ x ∈ l ∧ P x.
Proof.
  induction 1 as [ | y l r Hy _ IH | y l r Hy _ IH ]; intros x.
  - rewrite !elem_of_nil. tauto.
  - rewrite !elem_of_cons, IH. split; [|tauto].
    intros [-> | ?]; tauto.
  - rewrite elem_of_cons, IH. split; [tauto|].
    intros [[-> | ?] ?]; tauto.
Qed.

End Roster.

(** * Properties *)

Import JsString Regex Validator CourseSource Roster.

Local Open Scope Z_scope.

(** ** Sample data *)

Definition jane : FormData :=
  mkFormData (js "Jane Doe") (js "jane@doe.com") (js "HTML Basics") [].

Definition ann : FormData :=
  mkFormData (js "Ann") (js "a@x.com") (js "CSS") [].

(** Student 7 as saved, and the form of an edit that breaks its email. *)
Definition student7 : Student := withId jane 7.

Definition badEdit : FormData :=
  mkFormData (js "Jane Doe") (js "bad-email") (js "HTML Basics") [].

Definition editing7 : Dashboard :=
  mkDashboard [withId ann 3; student7] true (Some student7) [].

(** Two at signs: the last part of the address holds one. *)
Definition twoAts : FormData :=
  mkFormData (js "Ann") (js "a@b.c@d") (js "CSS") [].

(** A name and a course that are one space each. *)
Definition blankCourse : FormData :=
  mkFormData (js " ") (js "a@x.com") (js " ") [].

(** ** Validation *)

Lemma validateEmail_false (email : jsstring) :
  validateEmail email = false ↔ ¬ email_shape notSpaceOrAt email.
Proof.
  rewrite <- validateEmail_shape.
  destruct (validateEmail email); split; congruence.
Qed.

Example validateEmail_samples :
  validateEmail (js "student@example.com") = true
  ∧ validateEmail (js "a@b") = false
  ∧ validateEmail (js "noatsign.com") = false
  ∧ validateEmail (js "") = false
  ∧ validateEmail (js " a@b.c") = false.
Proof. repeat split; reflexivity. Qed.

Example validateStudent_jane : validateStudent jane = ∅.
Proof. reflexivity. Qed.

Lemma errors_shown (m : gmap string string) :
  (0 <? size m)%nat = true ↔ m ≠ ∅.
Proof. rewrite Nat.ltb_lt, <- map_size_non_empty_iff. lia. Qed.

Lemma handleSubmit_invalid (now : Z) (form : FormState) (st : Dashboard) :
  validateStudent (formData form) ≠ ∅ →
  handleSubmit now form st =
  (mkFormState (formData form) (validateStudent (formData form))
     (isSubmitting form), st).
Proof.
  intros H. unfold handleSubmit. apply errors_shown in H. by rewrite H.
Qed.

Lemma handleSubmit_valid (now : Z) (form : FormState) (st : Dashboard) :
  validateStudent (formData form) = ∅ →
  handleSubmit now form st =
  (mkFormState (formData form) (errors form) false,
   handleSaveStudent now (formData form) st).
Proof. intros H. unfold handleSubmit. by rewrite H. Qed.

(** ** Ids along a run *)

Lemma update_ids (e : Student) (u : Student) (l : list Student) :
  student_id u = student_id e →
  map student_id
    (map (fun s => if decide (student_id s = student_id e) then u else s) l)
  = map student_id l.
Proof.
  intros Hu. induction l as [|s l IH]; simpl; [done|].
  rewrite IH. by destruct (decide (student_id s = student_id e)) as [->|]; simpl;
    rewrite ?Hu.
Qed.

Lemma handleSaveStudent_ids (now : Z) (data : FormData) (st : Dashboard) :
  ids (handleSaveStudent now data st) =
  match editingStudent st with
  | Some _ => ids st
  | None => ids st ++ [now]
  end.
Proof.
  unfold ids, handleSaveStudent; simpl. destruct (editingStudent st) as [e|].
  - by apply update_ids.
  - by rewrite map_app.
Qed.

Lemma step_ids (a : action) (st : Dashboard) :
  ids (step a st) = ids st
  ∨ ∃ now data, a = Save now data ∧ ids (step a st) = ids st ++ [now].
Proof.
  destruct a as [ | s | now data | ]; simpl; try by left.
  unfold handleSubmit.
  destruct (0 <? size (validateStudent (formData (openForm data))))%nat;
    simpl; [by left|].
  rewrite handleSaveStudent_ids. destruct (editingStudent st); [by left|].
  right. eauto.
Qed.

Lemma step_clock (a : action) (rest : list action) :
  clock (a :: rest) = clock rest
  ∨ ∃ now data, a = Save now data ∧ clock (a :: rest) = now :: clock rest.
Proof. destruct a; simpl; eauto. Qed.

(** C1, as amended.  The id of a new student is the clock reading at
    which [addStudent] runs, and nothing compares it with the ids in the
    list.  Along every run of the dashboard whose saves happen at strictly
    increasing clock readings, each later than the ids the list starts
    with, no two students of the list have the same id: every student
    appended gets an id that no student already in the list has. *)
Theorem ids_distinct_while_clock_advances (actions : list action) :
  ∀ st : Dashboard,
    NoDup (ids st) →
    StronglySorted Z.lt (clock actions) →
    Forall (fun i => Forall (fun t => i < t) (clock actions)) (ids st) →
    NoDup (ids (run actions st)).
Proof.
  induction actions as [|a rest IH]; intros st Hnd Hs Hlt; simpl; [done|].
  destruct (step_ids a st) as [Heq | (now & data & -> & Heq)].
  - apply IH; rewrite ?Heq; [done | |].
    + destruct (step_clock a rest) as [Hc | (? & ? & _ & Hc)];
        rewrite Hc in Hs; [done|].
      by apply StronglySorted_inv in Hs as [? _].
    + destruct (step_clock a rest) as [Hc | (? & ? & _ & Hc)];
        rewrite Hc in Hlt; [done|].
      eapply Forall_impl; [exact Hlt|]. simpl.
      intros i Hi. by apply Forall_cons_1 in Hi as [_ ?].
  - simpl in Hs, Hlt. apply StronglySorted_inv in Hs as [Hs Hnow].
    apply IH; rewrite ?Heq; [ | done | ].
    + apply NoDup_app. split; [done|]. split; [|apply NoDup_singleton].
      intros i Hi Hin. apply list_elem_of_singleton in Hin as ->.
      rewrite Forall_forall in Hlt. specialize (Hlt _ Hi).
      apply Forall_cons_1 in Hlt as [? _]. lia.
    + apply Forall_app. split.
      * eapply Forall_impl; [exact Hlt|]. simpl.
        intros i Hi. by apply Forall_cons_1 in Hi as [_ ?].
      * by apply Forall_singleton.
Qed.

Lemma ids_distinct_while_clock_advances_witness :
  NoDup (ids (run [Save 1000 jane; StartAdd; Save 1001 ann; Cancel;
                   StartAdd; Save 1002 badEdit; Save 1003 ann]
                  editing7)).
Proof.
  apply (ids_distinct_while_clock_advances
           [Save 1000 jane; StartAdd; Save 1001 ann; Cancel;
            StartAdd; Save 1002 badEdit; Save 1003 ann] editing7).
  - unfold ids. simpl. apply NoDup_cons. split; [|apply NoDup_singleton].
    intros Hin. apply list_elem_of_singleton in Hin. discriminate.
  - simpl. repeat constructor; lia.
  - unfold ids. simpl. repeat constructor; lia.
Defined.

Example ids_of_a_run :
  ids (run [Save 1000 jane; StartAdd; Save 1001 ann; Cancel;
            StartAdd; Save 1002 badEdit; Save 1003 ann] editing7)
  = [3; 7; 1001; 1003].
Proof. reflexivity. Qed.

(** C1, as stated, fails: two students saved at the same clock reading
    get the same id. *)
Lemma same_clock_reading_same_id :
  ids (run [StartAdd; Save 1000 jane] initialDashboard) = [1000]
  ∧ ids (run [StartAdd; Save 1000 jane; StartAdd; Save 1000 ann]
             initialDashboard) = [1000; 1000]
  ∧ ¬ NoDup (ids (run [StartAdd; Save 1000 jane; StartAdd; Save 1000 ann]
                      initialDashboard)).
Proof.
  assert (H : ids (run [StartAdd; Save 1000 jane; StartAdd; Save 1000 ann]
                       initialDashboard) = [1000; 1000]) by reflexivity.
  split; [reflexivity|]. split; [exact H|].
  rewrite H. intros Hnd. apply NoDup_cons in Hnd as [Hnotin _].
  apply Hnotin. apply list_elem_of_singleton. reflexivity.
Qed.

(** ** The course source *)

(** C2.  Whenever the course fetch fails (the request is rejected, the
    status is outside 200..299, or the body is malformed), [fetchCourses]
    returns the four fallback courses, in their order; and whatever the
    network does, [fetchCourses] returns and does not throw. *)
Theorem fetchCourses_fallback `{JsNumber number} (net : FetchResult number) :
  fetch_failed net →
  fetchCourses net =
    Return [ mkCourse (VNum (number_of_Z 1)) (VStr (js "HTML Basics"));
             mkCourse (VNum (number_of_Z 2)) (VStr (js "CSS Mastery"));
             mkCourse (VNum (number_of_Z 3)) (VStr (js "JavaScript Pro"));
             mkCourse (VNum (number_of_Z 4)) (VStr (js "React In Depth")) ]
  ∧ ∀ net' : FetchResult number, ∃ courses, fetchCourses net' = Return courses.
Proof.
  intros Hf. split; [|apply fetchCourses_returns].
  unfold fetchCourses. by destruct (fetchCourses_try_failed net Hf) as [e ->].
Qed.

Lemma fetchCourses_fallback_witness :
  fetchCourses (Resolved (mkResponse 500 (Return (VArr [VNum 5%Z])))) =
    Return [ mkCourse (VNum 1%Z) (VStr (js "HTML Basics"));
             mkCourse (VNum 2%Z) (VStr (js "CSS Mastery"));
             mkCourse (VNum 3%Z) (VStr (js "JavaScript Pro"));
             mkCourse (VNum 4%Z) (VStr (js "React In Depth")) ].
Proof.
  refine (proj1 (fetchCourses_fallback
                   (Resolved (mkResponse 500 (Return (VArr [VNum 5%Z])))) _)).
  apply BadStatus. simpl. lia.
Defined.





(** Four items to normalize: a [name], a [courseName], a [title], and an
    empty [name] next to a [title]. *)
Definition sampleItems : list (value Z) :=
  [ VObj [(js "id", VNum 1); (js "name", VStr (js "A"));
          (js "title", VStr (js "T"))];
    VObj [(js "id", VNum 2); (js "courseName", VStr (js "B"))];
    VObj [(js "id", VNum 3); (js "title", VStr (js "C"))];
    VObj [(js "id", VNum 4); (js "name", VStr []);
          (js "title", VStr (js "D"))] ].

Example fetchCourses_sample :
  fetchCourses (Resolved (mkResponse 200 (Return (VArr sampleItems)))) =
  Return [ mkCourse (VNum 1) (VStr (js "A"));
           mkCourse (VNum 2) (VStr (js "B"));
           mkCourse (VNum 3) (VStr (js "C"));
           mkCourse (VNum 4) (VStr (js "D")) ].
Proof. reflexivity. Qed.


(** ** The validator's rules *)

(** C3, as amended.  [validateStudent] reports "Email is required" exactly
    when the trimmed email is empty; otherwise it reports "Please enter a
    valid email address" exactly when the email is not of the shape: one
    or more characters that are neither white space nor at signs, an at
    sign, one or more such characters, a full stop, and one or more
    characters that are again neither white space nor at signs. *)
Theorem email_rule_of_validateStudent (c : FormData) :
  email_rule notSpaceOrAt c.
Proof.
  unfold email_rule. rewrite validateStudent_email.
  destruct (not_str (trim (form_email c))) eqn:Ht.
  - apply not_str_true in Ht.
    repeat split; try done; intros [? _]; done.
  - apply not_str_false in Ht.
    destruct (validateEmail (form_email c)) eqn:Hv; simpl.
    + apply validateEmail_shape in Hv.
      repeat split; try done. intros [_ Hn]. by destruct Hn.
    + apply validateEmail_false in Hv.
      repeat split; try done. intros [_ Hs]. by destruct Hv.
Qed.

(** C3, as stated, fails: with any non-whitespace character allowed in the
    last part, "a@b.c@d" fits the pattern, and the validator rejects it. *)
Lemma email_rule_spec_pattern_fails :
  regex_test specEmailPattern (form_email twoAts) = true
  ∧ validateStudent twoAts !! "email" = Some "Please enter a valid email address"
  ∧ ¬ email_rule notSpace twoAts.
Proof.
  assert (Hs : regex_test specEmailPattern (form_email twoAts) = true)
    by reflexivity.
  assert (Hv : validateStudent twoAts !! "email"
               = Some "Please enter a valid email address") by reflexivity.
  split; [exact Hs|]. split; [exact Hv|].
  intros (_ & Hinvalid & _).
  apply Hinvalid in Hv as [_ Hn]. apply Hn.
  by apply specEmailPattern_shape.
Qed.

(** C8.  [validateStudent] reports a name error exactly when the trimmed
    name is empty, and each of the three rules is decided by its own field
    alone: the email error is there exactly when the trimmed email is
    empty or the email fails [validateEmail], the course error exactly
    when the course is empty, whatever the other fields are; the mapping
    has no other key. *)
Theorem validateStudent_rules_independent (c : FormData) :
  (validateStudent c !! "name" = Some "Name is required"
     ↔ trim (form_name c) = [])
  ∧ (validateStudent c !! "name" = None ↔ trim (form_name c) ≠ [])
  ∧ (is_Some (validateStudent c !! "email")
     ↔ trim (form_email c) = [] ∨ validateEmail (form_email c) = false)
  ∧ (is_Some (validateStudent c !! "course") ↔ form_course c = [])
  ∧ (∀ k, is_Some (validateStudent c !! k)
          → k = "name" ∨ k = "email" ∨ k = "course").
Proof.
  rewrite validateStudent_name, validateStudent_email, validateStudent_course.
  repeat split; try apply validateStudent_keys.
  - destruct (not_str (trim (form_name c))) eqn:Hn; [|done].
    by apply not_str_true in Hn.
  - intros ->. done.
  - destruct (not_str (trim (form_name c))) eqn:Hn; [done|].
    by apply not_str_false in Hn.
  - intros Hn. apply not_str_false in Hn. by rewrite Hn.
  - destruct (not_str (trim (form_email c))) eqn:He.
    + apply not_str_true in He. by left.
    + destruct (validateEmail (form_email c)); simpl; [|by right].
      by intros [? ?].
  - intros [He | Hv].
    + by rewrite He.
    + rewrite Hv. simpl. by destruct (not_str (trim (form_email c))).
  - destruct (form_course c); [done|]. by intros [? ?].
  - intros ->. done.
Qed.

Example validateStudent_all_errors :
  validateStudent (mkFormData [] [] [] []) =
  <["name" := "Name is required"]>
    (<["email" := "Email is required"]>
       (<["course" := "Please select a course"]> ∅)).
Proof.
  apply map_eq. intros k.
  destruct (decide (k = "name")) as [->|]; [reflexivity|].
  destruct (decide (k = "email")) as [->|]; [reflexivity|].
  destruct (decide (k = "course")) as [->|]; [reflexivity|].
  unfold validateStudent; simpl. by simplify_map_eq.
Qed.

(** C10.  A course that is not empty and is all white space gets no
    course error, since the course rule does not trim; the same text as a
    name does get the name error. *)
Theorem whitespace_course_passes (c : FormData) :
  form_course c ≠ [] →
  Forall (fun ch => isWhiteSpace ch = true) (form_course c) →
  validateStudent c !! "course" = None
  ∧ (form_name c = form_course c →
     validateStudent c !! "name" = Some "Name is required").
Proof.
  intros Hne Hws. rewrite validateStudent_course, validateStudent_name. split.
  - apply not_str_false in Hne. by rewrite Hne.
  - intros ->. apply trim_nil_iff in Hws. by rewrite Hws.
Qed.

Lemma whitespace_course_passes_witness :
  validateStudent blankCourse !! "course" = None
  ∧ (form_name blankCourse = form_course blankCourse →
     validateStudent blankCourse !! "name" = Some "Name is required").
Proof.
  apply (whitespace_course_passes blankCourse).
  - simpl. discriminate.
  - simpl. repeat constructor.
Defined.

(** ** Saving *)

(** C4.  A submission whose validation reports at least one error
    aborts: the form shows exactly these errors, and the dashboard, its
    student list included, is what it was; so in an edit every student,
    the edited one too, keeps all its fields. *)
Theorem invalid_submit_aborts (now : Z) (form : FormState) (st : Dashboard) :
  validateStudent (formData form) ≠ ∅ →
  errors (handleSubmit now form st).1 = validateStudent (formData form)
  ∧ (handleSubmit now form st).2 = st
  ∧ students (handleSubmit now form st).2 = students st
  ∧ ∀ editing, editingStudent st = Some editing →
      ∀ i : nat, students (handleSubmit now form st).2 !! i = students st !! i.
Proof.
  intros H. rewrite (handleSubmit_invalid now form st H); simpl.
  repeat split; done.
Qed.

Lemma invalid_submit_aborts_witness :
  errors (handleSubmit 5000 (openForm badEdit) editing7).1
    = validateStudent (formData (openForm badEdit))
  ∧ (handleSubmit 5000 (openForm badEdit) editing7).2 = editing7
  ∧ students (handleSubmit 5000 (openForm badEdit) editing7).2
    = students editing7
  ∧ ∀ editing, editingStudent editing7 = Some editing →
      ∀ i : nat, students (handleSubmit 5000 (openForm badEdit) editing7).2 !! i
                 = students editing7 !! i.
Proof.
  apply (invalid_submit_aborts 5000 (openForm badEdit) editing7).
  intros Hempty.
  assert (Hl : validateStudent (formData (openForm badEdit)) !! "email"
               = Some "Please enter a valid email address") by reflexivity.
  rewrite Hempty in Hl. discriminate.
Defined.

(** The scenario of the specification: student 7 is edited, the email set
    to "bad-email". *)
Example bad_email_edit :
  errors (handleSubmit 5000 (openForm badEdit) editing7).1 !! "email"
    = Some "Please enter a valid email address"
  ∧ students (handleSubmit 5000 (openForm badEdit) editing7).2
    = [withId ann 3; student7]
  ∧ student_email student7 = js "jane@doe.com".
Proof. repeat split; reflexivity. Qed.

(** C7.  A valid submission in update mode, the edited id being in the
    list: the list keeps its length and the ids keep their order; at
    every place whose student has the edited id there is now a student
    with that same id whose name, email, course and profile image are
    those of the form, and there is such a place; every student with
    another id is where and what it was. *)
Theorem valid_update_replaces (now : Z) (form : FormState) (st : Dashboard)
    (editing : Student) :
  validateStudent (formData form) = ∅ →
  editingStudent st = Some editing →
  student_id editing ∈ map student_id (students st) →
  let st' := (handleSubmit now form st).2 in
  length (students st') = length (students st)
  ∧ map student_id (students st') = map student_id (students st)
  ∧ (∀ (i : nat) s, students st !! i = Some s →
       student_id s = student_id editing →
       students st' !! i
       = Some (mkStudent (student_id editing)
                 (form_name (formData form)) (form_email (formData form))
                 (form_course (formData form))
                 (form_profileImage (formData form))))
  ∧ (∀ (i : nat) s, students st !! i = Some s →
       student_id s ≠ student_id editing →
       students st' !! i = Some s)
  ∧ (∃ (i : nat) s',
       students st' !! i = Some s'
       ∧ student_id s' = student_id editing
       ∧ student_name s' = form_name (formData form)
       ∧ student_email s' = form_email (formData form)
       ∧ student_course s' = form_course (formData form)
       ∧ student_profileImage s' = form_profileImage (formData form)).
Proof.
  intros Hvalid Hedit Hin st'. subst st'.
  rewrite (handleSubmit_valid now form st Hvalid); simpl.
  pose proof (handleSaveStudent_ids now (formData form) st) as Hids.
  rewrite Hedit in Hids. unfold ids in Hids.
  unfold handleSaveStudent in *. rewrite Hedit in *. simpl in *.
  unfold updateStudent, withId in *.
  assert (Hsame : ∀ (i : nat) s, students st !! i = Some s →
            student_id s = student_id editing →
            map (fun s0 => if decide (student_id s0 = student_id editing)
                           then mkStudent (student_id editing)
                                  (form_name (formData form))
                                  (form_email (formData form))
                                  (form_course (formData form))
                                  (form_profileImage (formData form))
                           else s0) (students st) !! i
            = Some (mkStudent (student_id editing)
                      (form_name (formData form)) (form_email (formData form))
                      (form_course (formData form))
                      (form_profileImage (formData form)))).
  { intros i s Hi Hs. rewrite list_lookup_fmap, Hi. simpl.
    by rewrite decide_True. }
  split; [apply length_map|]. split; [exact Hids|].
  split; [exact Hsame|]. split.
  - intros i s Hi Hs. rewrite list_lookup_fmap, Hi. simpl.
    by rewrite decide_False.
  - apply list_elem_of_fmap in Hin as (s & Hs & Hin).
    apply list_elem_of_lookup in Hin as [i Hi].
    eexists i, _. split; [by eapply Hsame|]. by simpl.
Qed.

Definition goodEdit : FormData :=
  mkFormData (js "Jane Roe") (js "jane@roe.org") (js "CSS Mastery") [].

Lemma valid_update_replaces_witness :
  let st' := (handleSubmit 5000 (openForm goodEdit) editing7).2 in
  length (students st') = length (students editing7)
  ∧ map student_id (students st') = map student_id (students editing7)
  ∧ (∀ (i : nat) s, students editing7 !! i = Some s →
       student_id s = student_id student7 →
       students st' !! i
       = Some (mkStudent (student_id student7)
                 (form_name (formData (openForm goodEdit)))
                 (form_email (formData (openForm goodEdit)))
                 (form_course (formData (openForm goodEdit)))
                 (form_profileImage (formData (openForm goodEdit)))))
  ∧ (∀ (i : nat) s, students editing7 !! i = Some s →
       student_id s ≠ student_id student7 →
       students st' !! i = Some s)
  ∧ (∃ (i : nat) s',
       students st' !! i = Some s'
       ∧ student_id s' = student_id student7
       ∧ student_name s' = form_name (formData (openForm goodEdit))
       ∧ student_email s' = form_email (formData (openForm goodEdit))
       ∧ student_course s' = form_course (formData (openForm goodEdit))
       ∧ student_profileImage s'
         = form_profileImage (formData (openForm goodEdit))).
Proof.
  apply (valid_update_replaces 5000 (openForm goodEdit) editing7 student7).
  - reflexivity.
  - reflexivity.
  - simpl. apply list_elem_of_In. simpl. tauto.
Defined.

Example good_edit :
  students (handleSubmit 5000 (openForm goodEdit) editing7).2
  = [ mkStudent 3 (js "Ann") (js "a@x.com") (js "CSS") [];
      mkStudent 7 (js "Jane Roe") (js "jane@roe.org") (js "CSS Mastery") [] ].
Proof. reflexivity. Qed.

(** ** Search *)

(** C5.  For a search term that is not empty, [filteredStudents] is the
    subsequence of the students, in their order, of exactly those whose
    name, email or course, lower-cased, contains the lower-cased term;
    the result is a new list, the input is not written to. *)
Theorem filteredStudents_selects (toLowerCase : jsstring → jsstring)
    (students : list Student) (searchTerm : jsstring) :
  searchTerm ≠ [] →
  selects (found toLowerCase searchTerm) students
    (filteredStudents toLowerCase students searchTerm)
  ∧ filteredStudents toLowerCase students searchTerm `sublist_of` students
  ∧ ∀ s, s ∈ filteredStudents toLowerCase students searchTerm
         ↔ s ∈ students ∧ found toLowerCase searchTerm s.
Proof.
  intros Hne.
  assert (Hsel : selects (found toLowerCase searchTerm) students
                   (filteredStudents toLowerCase students searchTerm)).
  { unfold filteredStudents. apply not_str_false in Hne. rewrite Hne.
    apply filter_selects. intros s. apply matchesSearch_found. }
  split; [exact Hsel|]. split.
  - by eapply selects_sublist.
  - by eapply selects_elem_of.
Qed.

Lemma filteredStudents_selects_witness :
  selects (found asciiToLowerCase (js "ann")) [withId jane 1; withId ann 2]
    (filteredStudents asciiToLowerCase [withId jane 1; withId ann 2] (js "ann"))
  ∧ filteredStudents asciiToLowerCase [withId jane 1; withId ann 2] (js "ann")
      `sublist_of` [withId jane 1; withId ann 2]
  ∧ ∀ s, s ∈ filteredStudents asciiToLowerCase
               [withId jane 1; withId ann 2] (js "ann")
         ↔ s ∈ [withId jane 1; withId ann 2]
           ∧ found asciiToLowerCase (js "ann") s.
Proof.
  apply (filteredStudents_selects asciiToLowerCase
           [withId jane 1; withId ann 2] (js "ann")).
  simpl. discriminate.
Defined.

(** The scenarios of the specification: the search for "ann" finds Ann,
    the search for "jane" finds Jane once she is added. *)
Example search_ann :
  filteredStudents asciiToLowerCase [withId ann 2] (js "ann") = [withId ann 2]
  ∧ filteredStudents asciiToLowerCase
      (students (run [StartAdd; Save 1000 ann; StartAdd; Save 2000 jane]
                     initialDashboard)) (js "jane")
    = [withId jane 2000].
Proof. split; reflexivity. Qed.

(** C6.  With the empty search term, [filteredStudents] is the student
    list itself, content and order. *)
Theorem filteredStudents_empty_term (toLowerCase : jsstring → jsstring)
    (students : list Student) :
  filteredStudents toLowerCase students [] = students.
Proof.
  unfold filteredStudents.
  assert (Hempty : not_str [] = true) by apply not_str_true, eq_refl.
  by rewrite Hempty.
Qed.

(** * The rest of the form, the student card and the loading of courses *)

(** ** The form's state ([StudentForm]) *)

Module Form.

(** The four controls of the form, by the key each one edits. *)
Inductive field : Type := FName | FEmail | FCourse | FProfileImage.

Definition key (f : field) : string :=
  match f with
  | FName => "name"
  | FEmail => "email"
  | FCourse => "course"
  | FProfileImage => "profileImage"
  end.

(** [data[field]] *)
Definition getField (f : field) (data : FormData) : jsstring :=
  match f with
  | FName => form_name data
  | FEmail => form_email data
  | FCourse => form_course data
  | FProfileImage => form_profileImage data
  end.

(** [{ ...prev, [field]: value }] on the form's data. *)
Definition setField (f : field) (value : jsstring) (prev : FormData) : FormData :=
  match f with
  | FName =>
      mkFormData value (form_email prev) (form_course prev)
        (form_profileImage prev)
  | FEmail =>
      mkFormData (form_name prev) value (form_course prev)
        (form_profileImage prev)
  | FCourse =>
      mkFormData (form_name prev) (form_email prev) value
        (form_profileImage prev)
  | FProfileImage =>
      mkFormData (form_name prev) (form_email prev) (form_course prev) value
  end.

(** Truthiness of [errors[k]]: the key is there and its message is not the
    empty string.  It is the condition under which the form draws the
    message and the red border of the control. *)
Definition showsError (errs : gmap string string) (k : string) : bool :=
  match errs !! k with
  | Some msg => negb (String.eqb msg "")
  | None => false
  end.

(** [handleInputChange]: the field takes the value, and a message shown
    for the field is overwritten by the empty string. *)
Definition handleInputChange (f : field) (value : jsstring) (form : FormState)
  : FormState :=
  mkFormState
    (setField f value (formData form))
    (if showsError (errors form) (key f)
     then <[key f := ""]> (errors form)
     else errors form)
    (isSubmitting form).

(** [x || ''] on a string. *)
Definition or_empty (x : jsstring) : jsstring :=
  if not_str x then [] else x.

(** The initial [formData]: [student?.name || ''] and so on, on the
    [student] prop, which is the dashboard's [editingStudent]. *)
Definition initialFormData (student : option Student) : FormData :=
  match student with
  | Some s =>
      mkFormData (or_empty (student_name s)) (or_empty (student_email s))
        (or_empty (student_course s)) (or_empty (student_profileImage s))
  | None => mkFormData [] [] [] []
  end.

(** The form as first rendered: no errors, not submitting. *)
Definition initialForm (student : option Student) : FormState :=
  mkFormState (initialFormData student) ∅ false.

End Form.

(** ** The student card ([StudentCard]) *)

Module Card.

(** [String.prototype.split] with a separator of one code unit: the
    segments between its occurrences; [seg] is the segment being read. *)
Fixpoint splitFrom (sep : N) (seg s : jsstring) : list jsstring :=
  match s with
  | [] => [seg]
  | c :: s' =>
      if (c =? sep)%N then seg :: splitFrom sep [] s'
      else splitFrom sep (seg ++ [c]) s'
  end.

Definition split (sep : N) (s : jsstring) : list jsstring := splitFrom sep [] s.

(** [n[0]]: the first code unit, [undefined] on the empty string. *)
Definition first (n : jsstring) : option N := head n.

(** [Array.prototype.join] with the empty separator, on an array of
    one-character strings and [undefined]s: [undefined] adds nothing. *)
Fixpoint join (parts : list (option N)) : jsstring :=
  match parts with
  | [] => []
  | Some c :: rest => c :: join rest
  | None :: rest => join rest
  end.

(** [name.split(' ').map(n => n[0]).join('')]; 32 is the space. *)
Definition initialLetters (name : jsstring) : jsstring :=
  join (map first (split 32 name)).

Section Initials.
(** [String.prototype.toUpperCase], whose Unicode case tables are the
    engine's. *)
Variable toUpperCase : jsstring → jsstring.

Definition getInitials (name : jsstring) : jsstring :=
  toUpperCase (initialLetters name).

End Initials.

End Card.

(** ** Loading the courses when the dashboard mounts *)

Module Mount.

Section Load.
Context {number : Type} `{JsNumber number}.

(** [err.message] *)
Variable message : exn → string.

(** The part of the context that the effect writes. *)
Record Context : Type := mkContext {
  ctx_courses : list (Course number);
  ctx_loading : bool;
  ctx_error : option string
}.

(** The state that [StudentProvider] starts with. *)
Definition initialContext : Context := mkContext [] false None.

(** The effect up to the [await]: [setLoading(true); setError(null)]. *)
Definition beginLoad (ctx : Context) : Context :=
  mkContext (ctx_courses ctx) true None.

(** The effect's [fetchCourses], run to its end on what the network
    gives: [try], [catch] and [finally]. *)
Definition loadCourses (net : FetchResult number) (ctx : Context) : Context :=
  let ctx := beginLoad ctx in
  let ctx :=
    match fetchCourses net with
    | Return coursesData =>
        mkContext coursesData (ctx_loading ctx) (ctx_error ctx)
    | Throw err =>
        mkContext fallbackCourses (ctx_loading ctx)
          (Some ("Failed to load courses: " +:+ message err))
    end in
  mkContext (ctx_courses ctx) false (ctx_error ctx).

(** [loading && courses.length === 0]: the dashboard draws the loading
    screen instead of itself. *)
Definition showsLoadingScreen (ctx : Context) : bool :=
  ctx_loading ctx && (length (ctx_courses ctx) =? 0)%nat.

End Load.

Arguments Context number : clear implicits.

End Mount.

(** * Further properties *)

Import Form Card Mount.

(** ** What the validator accepts *)

Lemma notSpaceOrAt_true (c : N) :
  notSpaceOrAt c = true → isWhiteSpace c = false ∧ c ≠ 64%N.
Proof.
  unfold notSpaceOrAt. intros H. apply negb_true_iff, orb_false_iff in H.
  destruct H as [Hw Ha]. split; [done|]. by apply N.eqb_neq.
Qed.

Lemma class_no_at (l : jsstring) :
  Forall (fun c => notSpaceOrAt c = true) l →
  count_occ N.eq_dec l 64%N = 0%nat ∧ Forall (fun c => isWhiteSpace c = false) l.
Proof.
  induction 1 as [|c l Hc _ [IHn IHw]]; [by split|].
  apply notSpaceOrAt_true in Hc as [Hw Ha]. split.
  - simpl. by destruct (N.eq_dec c 64%N).
  - by constructor.
Qed.

(** X1.  The validator accepts a form, that is reports no error at all,
    exactly when the trimmed name is not empty, the email has the shape
    that [validateEmail] tests, and the course is not empty. *)
Theorem validateStudent_accepts_iff (c : FormData) :
  validateStudent c = ∅
  ↔ trim (form_name c) ≠ []
    ∧ email_shape notSpaceOrAt (form_email c)
    ∧ form_course c ≠ [].
Proof.
  split.
  - intros H.
    pose proof (validateStudent_name c) as Hn.
    pose proof (validateStudent_email c) as He.
    pose proof (validateStudent_course c) as Hc.
    rewrite H, lookup_empty in Hn, He, Hc.
    destruct (not_str (trim (form_name c))) eqn:Hn'; [done|].
    destruct (not_str (trim (form_email c))) eqn:He'; [done|].
    destruct (validateEmail (form_email c)) eqn:Hv; [|done].
    destruct (not_str (form_course c)) eqn:Hc'; [done|].
    split; [by apply not_str_false|].
    split; [by apply validateEmail_shape | by apply not_str_false].
  - intros (Hn & He & Hc). apply map_empty. intros k.
    destruct (validateStudent c !! k) as [m|] eqn:Hk; [exfalso|done].
    assert (Htrim : trim (form_email c) ≠ []).
    { intros Ht. apply trim_nil_iff in Ht.
      destruct He as (l & d & t & Heq & [Hl1 Hl2] & _). rewrite Heq in Ht.
      destruct l as [|a l]; [done|].
      apply Forall_cons_1 in Ht as [Ha _], Hl2 as [Ha' _].
      apply notSpaceOrAt_true in Ha' as [? _]. congruence. }
    apply not_str_false in Hn, Hc, Htrim. apply validateEmail_shape in He.
    destruct (validateStudent_keys c k (mk_is_Some _ _ Hk)) as [-> | [-> | ->]].
    + rewrite validateStudent_name, Hn in Hk. done.
    + rewrite validateStudent_email, Htrim, He in Hk. done.
    + rewrite validateStudent_course, Hc in Hk. done.
Qed.

(** X2.  An email that [validateEmail] accepts has exactly one at sign,
    no white space, at least five code units, and neither begins nor ends
    with the at sign. *)
Theorem validateEmail_accepted_facts (email : jsstring) :
  validateEmail email = true →
  count_occ N.eq_dec email 64%N = 1%nat
  ∧ Forall (fun c => isWhiteSpace c = false) email
  ∧ (5 ≤ length email)%nat
  ∧ head email ≠ Some 64%N
  ∧ last email ≠ Some 64%N.
Proof.
  intros H. apply validateEmail_shape in H
    as (l & d & t & -> & [Hl Hl'] & [Hd Hd'] & [Ht Ht']).
  pose proof (class_no_at l Hl') as [Hcl Hwl].
  pose proof (class_no_at d Hd') as [Hcd Hwd].
  pose proof (class_no_at t Ht') as [Hct Hwt].
  repeat split.
  - rewrite !count_occ_app, Hcl, Hcd, Hct. reflexivity.
  - repeat (apply Forall_app; split); try done; by repeat constructor.
  - rewrite !length_app. simpl.
    destruct l, d, t; simpl; try done; lia.
  - destruct l as [|a l]; [done|]. simpl.
    apply Forall_cons_1 in Hl' as [Ha _].
    apply notSpaceOrAt_true in Ha as [_ Ha]. congruence.
  - intros Hlast. rewrite !app_assoc in Hlast.
    apply last_Some in Hlast as [pre Hpre].
    assert (Hin : (64%N : N) ∈ t).
    { destruct (last t) as [x|] eqn:Hx.
      - apply last_Some in Hx as [t' ->].
        rewrite app_assoc in Hpre. apply app_inj_tail in Hpre as [_ ->].
        apply elem_of_app. right. by apply list_elem_of_singleton.
      - by apply last_None in Hx. }
    rewrite Forall_forall in Ht'. apply Ht' in Hin. done.
Qed.

Lemma validateEmail_accepted_facts_witness :
  count_occ N.eq_dec (js "jane@doe.com") 64%N = 1%nat
  ∧ Forall (fun c => isWhiteSpace c = false) (js "jane@doe.com")
  ∧ (5 ≤ length (js "jane@doe.com"))%nat
  ∧ head (js "jane@doe.com") ≠ Some 64%N
  ∧ last (js "jane@doe.com") ≠ Some 64%N.
Proof.
  apply (validateEmail_accepted_facts (js "jane@doe.com")). reflexivity.
Defined.

(** ** The form and the save *)

(** X3.  A valid submission in create mode appends one student, whose
    id is the clock reading and whose name, email, course and profile
    image are those of the form; every student that was in the list is
    still at its place, and the form is closed. *)
Theorem valid_create_appends (now : Z) (form : FormState) (st : Dashboard) :
  validateStudent (formData form) = ∅ →
  editingStudent st = None →
  let st' := (handleSubmit now form st).2 in
  students st'
  = students st
    ++ [mkStudent now (form_name (formData form)) (form_email (formData form))
          (form_course (formData form)) (form_profileImage (formData form))]
  ∧ (∀ (i : nat) s, students st !! i = Some s → students st' !! i = Some s)
  ∧ (∃ s', students st' !! length (students st) = Some s'
           ∧ student_id s' = now
           ∧ student_name s' = form_name (formData form)
           ∧ student_email s' = form_email (formData form)
           ∧ student_course s' = form_course (formData form)
           ∧ student_profileImage s' = form_profileImage (formData form))
  ∧ length (students st') = S (length (students st))
  ∧ showForm st' = false
  ∧ editingStudent st' = None.
Proof.
  intros Hvalid Hnone st'. subst st'.
  rewrite (handleSubmit_valid now form st Hvalid). simpl.
  unfold handleSaveStudent. rewrite Hnone. simpl.
  unfold addStudent, withId.
  split; [done|]. split; [|split; [|split; [|done]]].
  - intros i s Hi. by apply lookup_app_l_Some.
  - eexists. split; [by rewrite list_lookup_middle|]. by simpl.
  - rewrite length_app. simpl. lia.
Qed.

Lemma valid_create_appends_witness :
  let st' := (handleSubmit 9000 (openForm goodEdit)
                (handleAddStudent editing7)).2 in
  students st'
  = students (handleAddStudent editing7)
    ++ [mkStudent 9000 (form_name (formData (openForm goodEdit)))
          (form_email (formData (openForm goodEdit)))
          (form_course (formData (openForm goodEdit)))
          (form_profileImage (formData (openForm goodEdit)))]
  ∧ (∀ (i : nat) s, students (handleAddStudent editing7) !! i = Some s →
       students st' !! i = Some s)
  ∧ (∃ s', students st' !! length (students (handleAddStudent editing7))
           = Some s'
           ∧ student_id s' = 9000
           ∧ student_name s' = form_name (formData (openForm goodEdit))
           ∧ student_email s' = form_email (formData (openForm goodEdit))
           ∧ student_course s' = form_course (formData (openForm goodEdit))
           ∧ student_profileImage s'
             = form_profileImage (formData (openForm goodEdit)))
  ∧ length (students st') = S (length (students (handleAddStudent editing7)))
  ∧ showForm st' = false
  ∧ editingStudent st' = None.
Proof.
  apply (valid_create_appends 9000 (openForm goodEdit)
           (handleAddStudent editing7)).
  - reflexivity.
  - reflexivity.
Defined.

Example good_create :
  students (handleSubmit 9000 (openForm goodEdit) (handleAddStudent editing7)).2
  = [ mkStudent 3 (js "Ann") (js "a@x.com") (js "CSS") [];
      mkStudent 7 (js "Jane Doe") (js "jane@doe.com") (js "HTML Basics") [];
      mkStudent 9000 (js "Jane Roe") (js "jane@roe.org") (js "CSS Mastery")
        [] ].
Proof. reflexivity. Qed.

(** X4.  [handleInputChange] gives the field its new value and leaves the
    other three fields alone; afterwards no error is shown for that
    field, whether or not the new value is valid; the entries of the
    other keys, and the set of keys, are what they were. *)
Theorem handleInputChange_effect (f : field) (value : jsstring)
    (form : FormState) :
  getField f (formData (handleInputChange f value form)) = value
  ∧ (∀ g, g ≠ f →
       getField g (formData (handleInputChange f value form))
       = getField g (formData form))
  ∧ showsError (errors (handleInputChange f value form)) (key f) = false
  ∧ (∀ k, k ≠ key f →
       errors (handleInputChange f value form) !! k = errors form !! k)
  ∧ dom (errors (handleInputChange f value form)) = dom (errors form)
  ∧ isSubmitting (handleInputChange f value form) = isSubmitting form.
Proof.
  unfold handleInputChange; simpl. repeat split.
  - by destruct f.
  - intros g Hg. by destruct f, g.
  - destruct (showsError (errors form) (key f)) eqn:Hs; [|done].
    unfold showsError. by rewrite lookup_insert_eq.
  - intros k Hk. destruct (showsError (errors form) (key f)); [|done].
    by rewrite lookup_insert_ne.
  - destruct (showsError (errors form) (key f)) eqn:Hs; [|done].
    rewrite dom_insert_L.
    assert (Hkey : key f ∈ dom (errors form)).
    { apply elem_of_dom. unfold showsError in Hs.
      by destruct (errors form !! key f). }
    apply set_eq. intros k. rewrite elem_of_union, elem_of_singleton.
    split; [intros [-> | ?]; done | by right].
Qed.

(** X5.  After a submission that validation rejects, the form shows an
    error for a key exactly when the validator reports that key. *)
Theorem rejected_submit_shows_errors (now : Z) (form : FormState)
    (st : Dashboard) (k : string) :
  validateStudent (formData form) ≠ ∅ →
  showsError (errors (handleSubmit now form st).1) k = true
  ↔ is_Some (validateStudent (formData form) !! k).
Proof.
  intros H. rewrite (handleSubmit_invalid now form st H). simpl.
  unfold showsError. split.
  - destruct (validateStudent (formData form) !! k); [eauto | done].
  - intros Hk.
    destruct (validateStudent_keys _ _ Hk) as [-> | [-> | ->]].
    + rewrite validateStudent_name in Hk |- *.
      destruct (not_str (trim (form_name (formData form)))); [done|].
      by apply is_Some_None in Hk.
    + rewrite validateStudent_email in Hk |- *.
      destruct (not_str (trim (form_email (formData form)))); [done|].
      destruct (validateEmail (form_email (formData form))); [|done].
      by apply is_Some_None in Hk.
    + rewrite validateStudent_course in Hk |- *.
      destruct (not_str (form_course (formData form))); [done|].
      by apply is_Some_None in Hk.
Qed.

Lemma rejected_submit_shows_errors_witness :
  showsError (errors (handleSubmit 5000 (openForm badEdit) editing7).1) "email"
  = true
  ↔ is_Some (validateStudent (formData (openForm badEdit)) !! "email").
Proof.
  apply (rejected_submit_shows_errors 5000 (openForm badEdit) editing7 "email").
  intros Hempty.
  assert (Hl : validateStudent (formData (openForm badEdit)) !! "email"
               = Some "Please enter a valid email address") by reflexivity.
  rewrite Hempty in Hl. discriminate.
Defined.

Lemma or_empty_id (x : jsstring) : or_empty x = x.
Proof. by destruct x. Qed.

Lemma initialFormData_withId (s : Student) :
  withId (initialFormData (Some s)) (student_id s) = s.
Proof.
  destruct s. unfold withId, initialFormData. simpl.
  by rewrite !or_empty_id.
Qed.

Lemma same_id_same_student (l : list Student) (s s' : Student) :
  NoDup (map student_id l) → s ∈ l → s' ∈ l →
  student_id s' = student_id s → s' = s.
Proof.
  induction l as [|x l IH]; intros Hnd Hs Hs' Hid.
  - by apply elem_of_nil in Hs.
  - simpl in Hnd. apply NoDup_cons in Hnd as [Hx Hnd].
    apply elem_of_cons in Hs as [-> | Hs], Hs' as [-> | Hs']; [done | | |].
    + destruct Hx. rewrite <- Hid. by apply list_elem_of_fmap_2.
    + destruct Hx. rewrite Hid. by apply list_elem_of_fmap_2.
    + by apply IH.
Qed.

(** X6.  Opening the edit form on a student of the list and submitting
    it as it opened gives back the same list, when the student's data is
    valid and the ids of the list are pairwise distinct. *)
Theorem unchanged_edit_keeps_list (now : Z) (st : Dashboard) (s : Student) :
  s ∈ students st →
  NoDup (ids st) →
  validateStudent (initialFormData (Some s)) = ∅ →
  students
    (handleSubmit now (initialForm (editingStudent (handleEditStudent s st)))
       (handleEditStudent s st)).2
  = students st.
Proof.
  intros Hin Hnd Hvalid.
  change (editingStudent (handleEditStudent s st)) with (Some s).
  rewrite handleSubmit_valid by exact Hvalid.
  unfold handleSaveStudent, handleEditStudent, updateStudent, initialForm.
  cbn [snd formData editingStudent students].
  rewrite initialFormData_withId.
  transitivity (map (fun x : Student => x) (students st)); [|apply map_id].
  apply map_ext_in. intros x Hx. apply list_elem_of_In in Hx.
  destruct (decide (student_id x = student_id s)) as [Hid|]; [|done].
  symmetry. by apply (same_id_same_student (students st)).
Qed.

Lemma unchanged_edit_keeps_list_witness :
  students
    (handleSubmit 5000
       (initialForm (editingStudent (handleEditStudent student7 editing7)))
       (handleEditStudent student7 editing7)).2
  = students editing7.
Proof.
  apply (unchanged_edit_keeps_list 5000 editing7 student7).
  - apply list_elem_of_In. simpl. tauto.
  - unfold ids. simpl. apply NoDup_cons. split; [|apply NoDup_singleton].
    intros Hin. apply list_elem_of_singleton in Hin. discriminate.
  - reflexivity.
Defined.

(** ** Runs of the dashboard *)

(** X7.  No action of the dashboard deletes or moves a student: along
    every run the ids the list starts with stay at the front, in order,
    and the list grows by at most one student per save. *)
Theorem run_keeps_ids_in_front (actions : list action) :
  ∀ st : Dashboard,
    ids st `prefix_of` ids (run actions st)
    ∧ (length (ids (run actions st))
       ≤ length (ids st) + length (clock actions))%nat.
Proof.
  induction actions as [|a rest IH]; intros st.
  - simpl. split; [done | lia].
  - destruct (IH (step a st)) as [Hp Hl].
    change (run (a :: rest) st) with (run rest (step a st)).
    destruct (step_ids a st) as [Heq | (now & data & -> & Heq)].
    + rewrite Heq in Hp, Hl. split; [done|].
      destruct (step_clock a rest) as [-> | (? & ? & _ & ->)]; simpl; lia.
    + rewrite Heq in Hp, Hl. split.
      * by eapply prefix_app_l.
      * rewrite length_app in Hl. simpl in *. lia.
Qed.

(** ** Search *)

Lemma includes_refl (s : jsstring) : includes s s = true.
Proof. apply includes_spec. exists [], []. by rewrite app_nil_r. Qed.

Lemma includes_trans (s t u : jsstring) :
  includes s t = true → includes t u = true → includes s u = true.
Proof.
  rewrite !includes_spec.
  intros (p1 & q1 & ->) (p2 & q2 & ->).
  exists (p1 ++ p2), (q2 ++ q1). by rewrite <- !app_assoc.
Qed.

Lemma filter_sublist_mono {A : Type} (f g : A → bool) (l : list A) :
  (∀ x, f x = true → g x = true) →
  List.filter f l `sublist_of` List.filter g l.
Proof.
  intros Hfg. induction l as [|x l IH]; simpl; [done|].
  destruct (f x) eqn:Hf.
  - rewrite (Hfg x Hf). by constructor.
  - destruct (g x); [by constructor | done].
Qed.

Lemma filter_sublist {A : Type} (f : A → bool) (l : list A) :
  List.filter f l `sublist_of` l.
Proof.
  induction l as [|x l IH]; simpl; [done|].
  destruct (f x); by constructor.
Qed.

(** X8.  A student of the list is always found by a search for its own
    name, email or course, typed in any letter case: the term only has to
    lower-case to the same string as the field. *)
Theorem own_field_finds_student (toLowerCase : jsstring → jsstring)
    (students : list Student) (s : Student) (term : jsstring) :
  s ∈ students →
  toLowerCase term = toLowerCase (student_name s)
  ∨ toLowerCase term = toLowerCase (student_email s)
  ∨ toLowerCase term = toLowerCase (student_course s) →
  s ∈ filteredStudents toLowerCase students term.
Proof.
  intros Hin Hterm. unfold filteredStudents.
  destruct (not_str term); [done|].
  apply list_elem_of_In, filter_In. split; [by apply list_elem_of_In|].
  unfold matchesSearch.
  destruct Hterm as [-> | [-> | ->]]; rewrite includes_refl;
    by rewrite ?orb_true_r.
Qed.

Lemma own_field_finds_student_witness :
  withId ann 2 ∈ filteredStudents asciiToLowerCase
                   [withId jane 1; withId ann 2] (js "A@X.COM").
Proof.
  apply (own_field_finds_student asciiToLowerCase
           [withId jane 1; withId ann 2] (withId ann 2) (js "A@X.COM")).
  - apply list_elem_of_In. simpl. tauto.
  - right. left. reflexivity.
Defined.

(** X9.  Two search terms that are not empty and lower-case to the same
    string give the same result. *)
Theorem search_ignores_case_of_term (toLowerCase : jsstring → jsstring)
    (students : list Student) (term term' : jsstring) :
  term ≠ [] → term' ≠ [] →
  toLowerCase term = toLowerCase term' →
  filteredStudents toLowerCase students term
  = filteredStudents toLowerCase students term'.
Proof.
  intros Hne Hne' Hlc. unfold filteredStudents.
  apply not_str_false in Hne, Hne'. rewrite Hne, Hne'.
  apply filter_ext. intros s. unfold matchesSearch. by rewrite Hlc.
Qed.

Lemma search_ignores_case_of_term_witness :
  filteredStudents asciiToLowerCase [withId jane 1; withId ann 2] (js "ANN")
  = filteredStudents asciiToLowerCase [withId jane 1; withId ann 2] (js "ann").
Proof.
  apply (search_ignores_case_of_term asciiToLowerCase
           [withId jane 1; withId ann 2] (js "ANN") (js "ann")).
  - simpl. discriminate.
  - simpl. discriminate.
  - reflexivity.
Defined.

(** The search goes student by student: the result on a list made of two
    parts is the result on the first followed by the result on the
    second. *)
Lemma search_of_appended_lists (toLowerCase : jsstring → jsstring)
    (l1 l2 : list Student) (term : jsstring) :
  filteredStudents toLowerCase (l1 ++ l2) term
  = filteredStudents toLowerCase l1 term ++ filteredStudents toLowerCase l2 term.
Proof.
  unfold filteredStudents. destruct (not_str term); [done|].
  apply List.filter_app.
Qed.

(** X10.  Searching the result of a search for the same term changes
    nothing. *)
Theorem search_idempotent (toLowerCase : jsstring → jsstring)
    (students : list Student) (term : jsstring) :
  filteredStudents toLowerCase
    (filteredStudents toLowerCase students term) term
  = filteredStudents toLowerCase students term.
Proof.
  unfold filteredStudents. destruct (not_str term); [done|].
  induction students as [|s l IH]; simpl; [done|].
  destruct (matchesSearch toLowerCase term s) eqn:Hs; simpl; [|done].
  by rewrite Hs, IH.
Qed.

(** X11.  A longer term narrows the result: when the lower-cased term
    occurs in the lower-cased longer term, and the longer term is not
    empty, every student found for the longer term is found for the
    shorter, in the same order. *)
Theorem longer_term_narrows (toLowerCase : jsstring → jsstring)
    (students : list Student) (term term' : jsstring) :
  term' ≠ [] →
  includes (toLowerCase term') (toLowerCase term) = true →
  filteredStudents toLowerCase students term'
  `sublist_of` filteredStudents toLowerCase students term.
Proof.
  intros Hne Hinc. unfold filteredStudents.
  apply not_str_false in Hne. rewrite Hne.
  destruct (not_str term); [apply filter_sublist|].
  apply filter_sublist_mono. intros s. unfold matchesSearch.
  rewrite !orb_true_iff.
  intros [[H | H] | H]; [left; left | left; right | right];
    by apply (includes_trans _ (toLowerCase term')).
Qed.

Lemma longer_term_narrows_witness :
  filteredStudents asciiToLowerCase [withId jane 1; withId ann 2] (js "Jane D")
  `sublist_of`
  filteredStudents asciiToLowerCase [withId jane 1; withId ann 2] (js "an").
Proof.
  apply (longer_term_narrows asciiToLowerCase
           [withId jane 1; withId ann 2] (js "an") (js "Jane D")).
  - simpl. discriminate.
  - reflexivity.
Defined.

(** X12.  After a valid submission in create mode the search result is
    the former result, followed by the new student when the term is empty
    or the new student matches it, and by nothing otherwise. *)
Theorem search_after_create (toLowerCase : jsstring → jsstring) (now : Z)
    (form : FormState) (st : Dashboard) (term : jsstring) :
  validateStudent (formData form) = ∅ →
  editingStudent st = None →
  filteredStudents toLowerCase (students (handleSubmit now form st).2) term
  = filteredStudents toLowerCase (students st) term
    ++ (if not_str term
           || matchesSearch toLowerCase term (withId (formData form) now)
        then [withId (formData form) now] else []).
Proof.
  intros Hvalid Hnone.
  rewrite (handleSubmit_valid now form st Hvalid).
  unfold handleSaveStudent, addStudent. rewrite Hnone.
  cbn [snd students].
  rewrite search_of_appended_lists. f_equal.
  unfold filteredStudents. destruct (not_str term); simpl; [done|].
  by destruct (matchesSearch toLowerCase term (withId (formData form) now)).
Qed.

Lemma search_after_create_witness :
  filteredStudents asciiToLowerCase
    (students (handleSubmit 9000 (openForm goodEdit)
                 (handleAddStudent editing7)).2) (js "roe")
  = filteredStudents asciiToLowerCase
      (students (handleAddStudent editing7)) (js "roe")
    ++ (if not_str (js "roe")
           || matchesSearch asciiToLowerCase (js "roe")
                (withId (formData (openForm goodEdit)) 9000)
        then [withId (formData (openForm goodEdit)) 9000] else []).
Proof.
  apply (search_after_create asciiToLowerCase 9000 (openForm goodEdit)
           (handleAddStudent editing7) (js "roe")).
  - reflexivity.
  - reflexivity.
Defined.

(** ** Initials on the student card *)

Lemma join_app (p q : list (option N)) : join (p ++ q) = join p ++ join q.
Proof.
  induction p as [|[c|] p IH]; simpl; [done | | done]. by rewrite IH.
Qed.

Lemma splitFrom_app_sep (sep : N) (a b : jsstring) :
  ∀ seg, splitFrom sep seg (a ++ sep :: b)
         = splitFrom sep seg a ++ splitFrom sep [] b.
Proof.
  induction a as [|c a IH]; intros seg; simpl.
  - by rewrite N.eqb_refl.
  - destruct (c =? sep)%N; [|apply IH]. by rewrite IH.
Qed.

Lemma splitFrom_no_sep (sep : N) (s : jsstring) :
  Forall (fun c => c ≠ sep) s →
  ∀ seg, splitFrom sep seg s = [seg ++ s].
Proof.
  induction 1 as [|c s Hc _ IH]; intros seg; simpl.
  - by rewrite app_nil_r.
  - apply N.eqb_neq in Hc. rewrite Hc, IH. by rewrite <- app_assoc.
Qed.

Lemma initials_nil_iff (sep : N) (s : jsstring) :
  ∀ seg, join (map first (splitFrom sep seg s)) = []
         ↔ seg = [] ∧ Forall (fun c => c = sep) s.
Proof.
  induction s as [|c s IH]; intros seg; simpl.
  - destruct seg; simpl; split; try done; by intros [? _].
  - destruct (c =? sep)%N eqn:Hc.
    + apply N.eqb_eq in Hc as ->. simpl.
      destruct seg as [|x seg]; simpl.
      * rewrite IH. split; [intros [_ ?]; by split; [|constructor]|].
        intros [_ Hf]. split; [done|]. by apply Forall_cons_1 in Hf as [_ ?].
      * split; [done | by intros [? _]].
    + apply N.eqb_neq in Hc. rewrite IH. split.
      * intros [Hs _]. by destruct seg.
      * intros [_ Hf]. by apply Forall_cons_1 in Hf as [? _].
Qed.

Lemma initials_no_sep (sep : N) (s : jsstring) :
  ∀ seg, Forall (fun c => c ≠ sep) seg →
         Forall (fun c => c ≠ sep) (join (map first (splitFrom sep seg s))).
Proof.
  induction s as [|c s IH]; intros seg Hseg; simpl.
  - destruct Hseg; simpl; by repeat constructor.
  - destruct (c =? sep)%N eqn:Hc.
    + simpl. assert (Hrest := IH [] (Forall_nil_2 _)).
      destruct Hseg; simpl; [done | by constructor].
    + apply N.eqb_neq in Hc. apply IH, Forall_app. by split; [|constructor].
Qed.

(** X13.  The initials of two texts joined by a space are the letters of
    the first followed by the letters of the second, upper-cased
    together. *)
Theorem getInitials_of_spaced_parts (toUpperCase : jsstring → jsstring)
    (a b : jsstring) :
  getInitials toUpperCase (a ++ [32%N] ++ b)
  = toUpperCase (initialLetters a ++ initialLetters b).
Proof.
  unfold getInitials, initialLetters, split. simpl.
  by rewrite splitFrom_app_sep, map_app, join_app.
Qed.

(** X14.  The letters that [getInitials] upper-cases never contain a
    space; there is none at all exactly when the name is empty or all
    spaces, which raises no error; a name without a space gives its first
    code unit. *)
Theorem initialLetters_shape (name : jsstring) :
  Forall (fun c => c ≠ 32%N) (initialLetters name)
  ∧ (initialLetters name = [] ↔ Forall (fun c => c = 32%N) name)
  ∧ (Forall (fun c => c ≠ 32%N) name → initialLetters name = take 1 name).
Proof.
  unfold initialLetters, split. split; [|split].
  - by apply initials_no_sep.
  - rewrite initials_nil_iff. split; [by intros [_ ?] | done].
  - intros Hname. rewrite (splitFrom_no_sep _ _ Hname). simpl.
    by destruct name.
Qed.

Lemma initialLetters_shape_witness :
  initialLetters (js "Jane") = take 1 (js "Jane").
Proof.
  apply (proj2 (proj2 (initialLetters_shape (js "Jane")))).
  simpl. repeat constructor; discriminate.
Defined.

Example getInitials_samples :
  getInitials asciiToLowerCase (js "Jane Doe") = js "jd"
  ∧ initialLetters (js " Jane   van Doe ") = js "JvD"
  ∧ initialLetters (js "") = js ""
  ∧ initialLetters (js "   ") = js "".
Proof. repeat split; reflexivity. Qed.

(** ** The course source, all outcomes *)

Lemma mapM_normalize_cases `{JsNumber number} (items : list (value number)) :
  mapM normalize items = Return (map normalized items)
  ∨ ∃ e, mapM normalize items = Throw e.
Proof.
  induction items as [|v items IH]; simpl; [by left|].
  assert (Hv : v = VNull ∨ v = VUndefined ∨ (v ≠ VNull ∧ v ≠ VUndefined))
    by (destruct v; auto).
  destruct Hv as [-> | [-> | [Hn Hu]]].
  - right. simpl. eauto.
  - right. simpl. eauto.
  - rewrite normalize_defined by done. simpl.
    destruct IH as [-> | [e ->]]; simpl; eauto.
Qed.

(** X15.  [fetchCourses] has two outcomes only: the four fallback
    courses, or, for an ok response whose body is an array, one
    normalized course per item of the array.  It never returns a part of
    the fetched list: one bad item gives the fallback for all. *)
Theorem fetchCourses_all_or_fallback `{JsNumber number}
    (net : FetchResult number) :
  fetchCourses net = Return fallbackCourses
  ∨ ∃ r items,
      net = Resolved r ∧ ok r = true ∧ json r = Return (VArr items)
      ∧ fetchCourses net = Return (map normalized items).
Proof.
  unfold fetchCourses, fetchCourses_try.
  destruct net as [|r]; simpl; [by left|].
  destruct (ok r) eqn:Hok; simpl; [|by left].
  destruct (json r) as [v|e] eqn:Hjson; simpl; [|by left].
  destruct v as [ | | b | n | s | items | props ]; simpl; try by left.
  destruct (mapM_normalize_cases items) as [Hm | [e Hm]]; rewrite Hm.
  - right. by exists r, items.
  - by left.
Qed.

(** An item that is a boolean, a number, a string or an array. *)
Definition primitive {number : Type} (v : value number) : Prop :=
  match v with
  | VBool _ | VNum _ | VStr _ | VArr _ => True
  | _ => False
  end.

(** X16.  Items that are not objects are not a failure: for an ok
    response whose body is an array of booleans, numbers, strings or
    arrays, [fetchCourses] returns one course per item, each with an
    undefined id and an undefined name, and not the fallback. *)
Theorem fetchCourses_of_primitives `{JsNumber number}
    (r : Response number) (items : list (value number)) :
  ok r = true →
  json r = Return (VArr items) →
  Forall primitive items →
  fetchCourses (Resolved r)
  = Return (replicate (length items) (mkCourse VUndefined VUndefined)).
Proof.
  intros Hok Hjson Hitems.
  unfold fetchCourses, fetchCourses_try. simpl. rewrite Hok, Hjson. simpl.
  assert (Hm : mapM normalize items
               = Return (replicate (length items)
                           (mkCourse VUndefined VUndefined))).
  { clear Hjson. induction Hitems as [|v items Hv _ IH]; simpl; [done|].
    destruct v; try done; rewrite IH; reflexivity. }
  by rewrite Hm.
Qed.

Lemma fetchCourses_of_primitives_witness :
  fetchCourses
    (Resolved (mkResponse 200
                 (Return (VArr [VNum 1%Z; VStr (js "CSS"); VBool true]))))
  = Return (replicate (length [VNum 1%Z; VStr (js "CSS"); VBool true])
              (mkCourse VUndefined VUndefined)).
Proof.
  apply (fetchCourses_of_primitives
           (mkResponse 200
              (Return (VArr [VNum 1%Z; VStr (js "CSS"); VBool true])))
           [VNum 1%Z; VStr (js "CSS"); VBool true]).
  - reflexivity.
  - reflexivity.
  - repeat constructor.
Defined.

(** ** The loading of courses *)

(** X17.  Whatever the network does, when the effect that loads the
    courses has run, [loading] is false, [error] is null (the effect's
    [catch] clause never runs, since [fetchCourses] does not throw), the
    courses are those that [fetchCourses] returned, the fallback ones
    after a failed fetch, and the loading screen is not shown. *)
Theorem loadCourses_never_sets_error `{JsNumber number}
    (message : exn → string) (net : FetchResult number)
    (ctx : Context number) :
  ctx_loading (loadCourses message net ctx) = false
  ∧ ctx_error (loadCourses message net ctx) = None
  ∧ fetchCourses net = Return (ctx_courses (loadCourses message net ctx))
  ∧ showsLoadingScreen (loadCourses message net ctx) = false
  ∧ (fetch_failed net →
     ctx_courses (loadCourses message net ctx) = fallbackCourses).
Proof.
  unfold loadCourses, showsLoadingScreen.
  destruct (fetchCourses_returns net) as [cs Hcs].
  rewrite Hcs. simpl. repeat split.
  intros Hf. unfold fetchCourses in Hcs.
  destruct (fetchCourses_try_failed net Hf) as [e He].
  rewrite He in Hcs. by injection Hcs as <-.
Qed.

Lemma loadCourses_never_sets_error_witness :
  ctx_courses
    (loadCourses (fun _ => "Load failed")
       (Resolved (mkResponse 404 (Return (VArr [VNum 5%Z]))))
       initialContext)
  = fallbackCourses.
Proof.
  apply (proj2 (proj2 (proj2 (proj2
           (loadCourses_never_sets_error (fun _ => "Load failed")
              (Resolved (mkResponse 404 (Return (VArr [VNum 5%Z]))))
              initialContext))))).
  apply BadStatus. simpl. lia.
Defined.
